(** * React-Custom-Tools: the hooks and the auth container, embedded and verified

    A shallow embedding of the repository's five units
    ([authReducer], [AuthProvider], [useApi]/[useFetch], [useCounter],
    [useForm]) together with the statements of their specification.

    Conventions of the embedding.
    - A hook is embedded as the record of its state cells plus one function
      per callback it returns; a callback maps the state before the call to
      the state React holds once the updates it queued are applied.
    - Host facilities (session storage, [JSON], [fetch], abort signals) are
      modelled next to the code that calls them, each with a comment saying
      what part of the host behaviour is covered.
    - JavaScript numbers are modelled by [Z]: the integers, on which the
      host arithmetic is exact within the safe range.  Fractions, NaN and
      infinities are outside the embedding. *)

From Stdlib Require Import ZArith String Ascii List Bool.
From stdpp Require Import base option gmap strings pretty.

Set Warnings "-register-all".

Local Open Scope string_scope.

(** ** JavaScript values *)

Module JS.

(** The values a payload, a request body or a decoded response can be.
    Objects keep their properties in insertion order. *)
Inductive value : Type :=
| VUndefined
| VNull
| VBool (b : bool)
| VNum (n : Z)
| VStr (s : string)
| VArr (items : list value)
| VObj (props : list (string * value)).

(** [!!v] and [v ? a : b]: the host's ToBoolean. *)
Definition truthy (v : value) : bool :=
  match v with
  | VUndefined | VNull => false
  | VBool b => b
  | VNum n => negb (n =? 0)%Z
  | VStr s => negb (String.eqb s EmptyString)
  | VArr _ | VObj _ => true
  end.

(** An exception value: the two properties the code reads. *)
Record error : Type := Error { name : string; message : string }.

(** Completion of a synchronous piece of code. *)
Inductive completion (A : Type) : Type :=
| Normal (a : A)
| Throw (e : error).
Arguments Normal {A} a.
Arguments Throw {A} e.

(** Settlement of a promise. *)
Inductive settled (A : Type) : Type :=
| Fulfilled (a : A)
| Rejected (e : error).
Arguments Fulfilled {A} a.
Arguments Rejected {A} e.

(** [try { body } catch (e) { handler e }] for code without other effects. *)
Definition try_catch {A} (body : completion A) (handler : error → completion A)
  : completion A :=
  match body with
  | Normal a => Normal a
  | Throw e => handler e
  end.

(** Sequencing of completions: the first [Throw] ends the block. *)
#[global] Instance completion_ret : MRet completion := @Normal.
#[global] Instance completion_bind : MBind completion :=
  λ A B f m, match m with Normal a => f a | Throw e => Throw e end.

End JS.
Export JS.

(** ** The host's JSON object *)

Module JSON.

(** *** [JSON.stringify] *)

(** The one-character string holding a double quote. *)
Definition dquote : string := String (ascii_of_nat 34) EmptyString.

Definition hex_digit (n : N) : ascii :=
  match n with
  | 10 => "a" | 11 => "b" | 12 => "c" | 13 => "d" | 14 => "e" | 15 => "f"
  | _ => pretty_N_char n
  end%char%N.

Definition escape_char (c : ascii) : string :=
  let n := N_of_ascii c in
  if (n =? 34)%N then String "\" dquote
  else if (n =? 92)%N then "\\"
  else if (n =? 8)%N then "\b"
  else if (n =? 12)%N then "\f"
  else if (n =? 10)%N then "\n"
  else if (n =? 13)%N then "\r"
  else if (n =? 9)%N then "\t"
  else if (n <? 32)%N then
    "\u00" ++ String (hex_digit (n / 16)) (String (hex_digit (n mod 16)) EmptyString)
  else String c EmptyString.

Fixpoint escape (s : string) : string :=
  match s with
  | EmptyString => EmptyString
  | String c s' => escape_char c ++ escape s'
  end.

Definition quote (s : string) : string := dquote ++ escape s ++ dquote.

Fixpoint join (sep : string) (l : list string) : string :=
  match l with
  | [] => EmptyString
  | [x] => x
  | x :: l' => x ++ sep ++ join sep l'
  end.

(** [None] is the host's [undefined] result. An [undefined] array element
    is written [null]; a property whose value is [undefined] is left out. *)
Fixpoint stringify (v : value) : option string :=
  match v with
  | VUndefined => None
  | VNull => Some "null"
  | VBool true => Some "true"
  | VBool false => Some "false"
  | VNum n => Some (pretty n)
  | VStr s => Some (quote s)
  | VArr items =>
      Some ("[" ++ join "," (map (λ x, default "null" (stringify x)) items) ++ "]")
  | VObj props =>
      Some ("{" ++ join ","
              (omap (λ kv, match stringify (snd kv) with
                           | Some s => Some (quote (fst kv) ++ ":" ++ s)
                           | None => None
                           end) props) ++ "}")
  end.

(** *** [JSON.parse]

    An executable reader for the part of the JSON grammar whose values live
    in [value]: the three literals, integer numerals, strings with the
    two-character escapes, arrays and objects, with insignificant white
    space.  A numeral with a fraction or an exponent and a [\u] escape denote
    values outside [value] and are not read.  The statements below that
    hold for every outcome of the host's parser take the parser as a
    parameter; this reader serves to run the code on concrete texts. *)

Definition dq : ascii := ascii_of_nat 34.

Definition is_ws (c : ascii) : bool :=
  let n := N_of_ascii c in
  (n =? 32)%N || (n =? 9)%N || (n =? 10)%N || (n =? 13)%N.

Fixpoint skip_ws (s : string) : string :=
  match s with
  | String c s' => if is_ws c then skip_ws s' else s
  | EmptyString => EmptyString
  end.

Definition is_digit (c : ascii) : bool :=
  let n := N_of_ascii c in (48 <=? n)%N && (n <=? 57)%N.

Definition digit_val (c : ascii) : Z := Z.of_N (N_of_ascii c) - 48.

Fixpoint read_digits (s : string) (acc : Z) : Z * string :=
  match s with
  | String c s' =>
      if is_digit c then read_digits s' (10 * acc + digit_val c)%Z else (acc, s)
  | EmptyString => (acc, s)
  end.

(** What may not follow an integer numeral in this reader. *)
Definition starts_fraction_or_exponent (s : string) : bool :=
  match s with
  | String c _ => Ascii.eqb c "." || Ascii.eqb c "e" || Ascii.eqb c "E"
  | EmptyString => false
  end.

Definition parse_unsigned (s : string) : option (Z * string) :=
  match s with
  | String c s' =>
      if Ascii.eqb c "0" then
        if starts_fraction_or_exponent s' then None else Some (0%Z, s')
      else if is_digit c then
        let '(n, r) := read_digits s' (digit_val c) in
        if starts_fraction_or_exponent r then None else Some (n, r)
      else None
  | EmptyString => None
  end.

Definition parse_number (s : string) : option (Z * string) :=
  match s with
  | String c s' =>
      if Ascii.eqb c "-" then
        match parse_unsigned s' with
        | Some (n, r) => Some ((- n)%Z, r)
        | None => None
        end
      else parse_unsigned s
  | EmptyString => None
  end.

Definition unescape (c : ascii) : option ascii :=
  if Ascii.eqb c dq then Some dq
  else if Ascii.eqb c "\" then Some "\"%char
  else if Ascii.eqb c "/" then Some "/"%char
  else if Ascii.eqb c "b" then Some (ascii_of_nat 8)
  else if Ascii.eqb c "f" then Some (ascii_of_nat 12)
  else if Ascii.eqb c "n" then Some (ascii_of_nat 10)
  else if Ascii.eqb c "r" then Some (ascii_of_nat 13)
  else if Ascii.eqb c "t" then Some (ascii_of_nat 9)
  else None.

(** The characters of a string literal, read after its opening quote. *)
Fixpoint parse_string_chars (s : string) : option (string * string) :=
  match s with
  | EmptyString => None
  | String c s' =>
      if Ascii.eqb c dq then Some (EmptyString, s')
      else if Ascii.eqb c "\" then
        match s' with
        | String e s'' =>
            match unescape e, parse_string_chars s'' with
            | Some ch, Some (str, r) => Some (String ch str, r)
            | _, _ => None
            end
        | EmptyString => None
        end
      else if (N_of_ascii c <? 32)%N then None
      else
        match parse_string_chars s' with
        | Some (str, r) => Some (String c str, r)
        | None => None
        end
  end.

Fixpoint strip_prefix (p s : string) : option string :=
  match p, s with
  | EmptyString, _ => Some s
  | String a p', String b s' => if Ascii.eqb a b then strip_prefix p' s' else None
  | String _ _, EmptyString => None
  end.

(** A repeated property name keeps its first position and its last value. *)
Fixpoint set_prop (k : string) (v : value) (props : list (string * value))
  : list (string * value) :=
  match props with
  | [] => [(k, v)]
  | (k', v') :: props' =>
      if String.eqb k k' then (k, v) :: props' else (k', v') :: set_prop k v props'
  end.

Definition make_object (members : list (string * value)) : value :=
  VObj (fold_left (λ acc kv, set_prop (fst kv) (snd kv) acc) members []).

Fixpoint parse_value (fuel : nat) (s : string) : option (value * string) :=
  match fuel with
  | O => None
  | S fuel =>
      match skip_ws s with
      | EmptyString => None
      | String c rest =>
          if Ascii.eqb c "[" then
            match skip_ws rest with
            | String c' rest' =>
                if Ascii.eqb c' "]" then Some (VArr [], rest')
                else
                  match parse_elements fuel rest with
                  | Some (items, r) => Some (VArr items, r)
                  | None => None
                  end
            | EmptyString => None
            end
          else if Ascii.eqb c "{" then
            match skip_ws rest with
            | String c' rest' =>
                if Ascii.eqb c' "}" then Some (VObj [], rest')
                else
                  match parse_members fuel rest with
                  | Some (members, r) => Some (make_object members, r)
                  | None => None
                  end
            | EmptyString => None
            end
          else if Ascii.eqb c dq then
            match parse_string_chars rest with
            | Some (str, r) => Some (VStr str, r)
            | None => None
            end
          else if Ascii.eqb c "n" then
            match strip_prefix "ull" rest with
            | Some r => Some (VNull, r)
            | None => None
            end
          else if Ascii.eqb c "t" then
            match strip_prefix "rue" rest with
            | Some r => Some (VBool true, r)
            | None => None
            end
          else if Ascii.eqb c "f" then
            match strip_prefix "alse" rest with
            | Some r => Some (VBool false, r)
            | None => None
            end
          else
            match parse_number (String c rest) with
            | Some (n, r) => Some (VNum n, r)
            | None => None
            end
      end
  end
with parse_elements (fuel : nat) (s : string) : option (list value * string) :=
  match fuel with
  | O => None
  | S fuel =>
      match parse_value fuel s with
      | Some (v, r) =>
          match skip_ws r with
          | String c r' =>
              if Ascii.eqb c "," then
                match parse_elements fuel r' with
                | Some (vs, r'') => Some (v :: vs, r'')
                | None => None
                end
              else if Ascii.eqb c "]" then Some ([v], r')
              else None
          | EmptyString => None
          end
      | None => None
      end
  end
with parse_members (fuel : nat) (s : string)
  : option (list (string * value) * string) :=
  match fuel with
  | O => None
  | S fuel =>
      match skip_ws s with
      | String c r =>
          if Ascii.eqb c dq then
            match parse_string_chars r with
            | Some (k, r1) =>
                match skip_ws r1 with
                | String c1 r2 =>
                    if Ascii.eqb c1 ":" then
                      match parse_value fuel r2 with
                      | Some (v, r3) =>
                          match skip_ws r3 with
                          | String c3 r4 =>
                              if Ascii.eqb c3 "," then
                                match parse_members fuel r4 with
                                | Some (ms, r5) => Some ((k, v) :: ms, r5)
                                | None => None
                                end
                              else if Ascii.eqb c3 "}" then Some ([(k, v)], r4)
                              else None
                          | EmptyString => None
                          end
                      | None => None
                      end
                    else None
                | EmptyString => None
                end
            | None => None
            end
          else None
      | EmptyString => None
      end
  end.

Definition SyntaxError : error :=
  {| name := "SyntaxError"; message := "Unexpected token in JSON" |}.

(** [JSON.parse text]: the value, or a thrown [SyntaxError]. *)
Definition parse (text : string) : completion value :=
  match parse_value (2 * String.length text + 2) text with
  | Some (v, rest) =>
      match skip_ws rest with
      | EmptyString => Normal v
      | String _ _ => Throw SyntaxError
      end
  | None => Throw SyntaxError
  end.

End JSON.

(** ** Session storage

    The host's [sessionStorage]: a finite map from keys to texts.  [getItem]
    answers [None] for the host's [null]; [setItem] stores the text form of
    its argument, which for [undefined] is the nine letters of that word. *)

Module sessionStorage.

Definition getItem (key : string) (store : gmap string string) : option string :=
  store !! key.

Definition to_text (x : option string) : string := default "undefined" x.

Definition setItem (key : string) (x : option string) (store : gmap string string)
  : gmap string string :=
  <[key := to_text x]> store.

Definition removeItem (key : string) (store : gmap string string)
  : gmap string string :=
  delete key store.

End sessionStorage.

(** ** src/types/authTypes.js *)

Module authTypes.

Definition login : string := "[Auth] Log in".
Definition logout : string := "[Auth] Log out".

End authTypes.

(** ** The auth reducer and its provider *)

Module Auth.

Record AuthState : Type := { logged : bool; data : value }.

Record Action : Type := { type : string; payload : value }.

Definition initialAuthState : AuthState := {| logged := false; data := VNull |}.

(** [authReducer (initialState = initialAuthState, { type, payload })].
    A state is modelled by its two properties [logged] and [data], those of
    [initialAuthState]; both are overwritten in the login case, whose
    spread of [initialState] would carry over any further property. *)
Definition authReducer (initialState : option AuthState) (action : Action) : AuthState :=
  let initialState := default initialAuthState initialState in
  if String.eqb (type action) authTypes.login then
    {| logged := true; data := payload action |}
  else if String.eqb (type action) authTypes.logout then
    initialAuthState
  else
    {| logged := logged initialState; data := data initialState |}.

(** [raw ? JSON.parse(raw) : null], with [parse] standing for the host's
    [JSON.parse]. *)
Definition parse_or_null (parse : string → completion value) (raw : option string)
  : completion value :=
  match raw with
  | Some text => if String.eqb text EmptyString then Normal VNull else parse text
  | None => Normal VNull
  end.

(** [initializeAuthState name], reading the store it is run against.  The
    handler also writes a warning to the console, which is not modelled. *)
Definition initializeAuthState (parse : string → completion value)
    (store : gmap string string) (name : string) : completion AuthState :=
  try_catch
    (let raw := sessionStorage.getItem name store in
     data ← parse_or_null parse raw;
     mret {| logged := truthy data; data := data |})
    (λ error, mret initialAuthState).

(** The host's [useReducer(reducer, initialArg, init)] at a first render,
    as React defines it: without a third argument the first state is
    [initialArg]; with one, React calls it on [initialArg] and takes what it
    returns.  A third argument that is an object and not a function makes
    that call throw. *)
Inductive Init : Type :=
| NoInit
| InitFunction (init : AuthState → AuthState)
| InitObject (init : AuthState).

Definition init_is_not_a_function : error :=
  {| name := "TypeError"; message := "init is not a function" |}.

Definition useReducer (reducer : option AuthState → Action → AuthState)
    (initialArg : AuthState) (init : Init) : completion AuthState :=
  match init with
  | NoInit => Normal initialArg
  | InitFunction init => Normal (init initialArg)
  | InitObject _ => Throw init_is_not_a_function
  end.

(** The first render of [AuthProvider], up to the state it would expose.
    The argument [initializeAuthState(name)] is evaluated first, and its
    value, an object, is handed over as the third argument.  The render
    goes on to build [onLogIn] and [onLogOut] from the dispatch function
    and to return the provider element; a render that throws at
    [useReducer] builds neither. *)
Definition AuthProvider (parse : string → completion value)
    (store : gmap string string) (name : string) : completion AuthState :=
  init ← initializeAuthState parse store name;
  useReducer authReducer initialAuthState (InitObject init).

(** The invariant of the specification. *)
Definition logged_iff_data (st : AuthState) : Prop :=
  logged st = true ↔ data st ≠ VNull.

Definition LoggedOut : AuthState := {| logged := false; data := VNull |}.
Definition LoggedIn (payload : value) : AuthState :=
  {| logged := true; data := payload |}.

(** The text [{"id":1}]. *)
Definition id1_text : string :=
  "{" ++ JSON.dquote ++ "id" ++ JSON.dquote ++ ":1}".

(** A history of dispatched actions, applied in order by the reducer. *)
Definition dispatch_all (actions : list Action) (st : AuthState) : AuthState :=
  fold_left (λ s action, authReducer (Some s) action) actions st.

(** The two action types the reducer has a case for. *)
Definition is_auth_action (action : Action) : bool :=
  String.eqb (type action) authTypes.login
  || String.eqb (type action) authTypes.logout.

End Auth.

(** ** useCounter *)

Module useCounter.

(** The hook's state cell and the argument it was built with.  The counts
    and amounts are integers; the sums and differences below are those of
    the source, which computes in double precision, as long as the operands
    and the result are safe integers. *)
Record Counter : Type := { initialValue : Z; count : Z }.

(** [Number.isSafeInteger]: between [-(2^53 - 1)] and [2^53 - 1]. *)
Definition safe_integer (n : Z) : Prop :=
  (- (2 ^ 53 - 1) ≤ n ≤ 2 ^ 53 - 1)%Z.

Definition setCount (n : Z) (c : Counter) : Counter :=
  {| initialValue := initialValue c; count := n |}.

(** [useCounter(initialValue = 0)] at its first render. *)
Definition useCounter (initialValue : option Z) : Counter :=
  let initialValue := default 0%Z initialValue in
  {| initialValue := initialValue; count := initialValue |}.

(** The callbacks of the render that shows [c]. *)
Definition increment (value : option Z) (c : Counter) : Counter :=
  let value := default 1%Z value in
  setCount (count c + value) c.

Definition decrement (value : option Z) (c : Counter) : Counter :=
  let value := default 1%Z value in
  if (count c =? 0)%Z then c
  else setCount (count c - value) c.

Definition reset (c : Counter) : Counter := setCount (initialValue c) c.

(** A call of one of the three callbacks. *)
Inductive Call : Type :=
| CallIncrement (value : option Z)
| CallDecrement (value : option Z)
| CallReset.

(** The call made from the render that shows [c]. *)
Definition call (c : Counter) (k : Call) : Counter :=
  match k with
  | CallIncrement value => increment value c
  | CallDecrement value => decrement value c
  | CallReset => reset c
  end.

(** Calls made one after the other, each from the render that follows the
    call before it. *)
Definition calls (ks : list Call) (c : Counter) : Counter := fold_left call ks c.



End useCounter.

(** ** useForm

    React decides whether a state cell changed, and whether an effect runs
    again, by the identity of the object, not by its content.  An object is
    therefore a reference together with its properties.  The two arguments
    of the hook are taken to be the same objects at every render. *)

Module useForm.

(** A field holds the input's text, or the checked flag of a checkbox. *)
Inductive field : Type :=
| Text (s : string)
| Checked (b : bool).

Record object : Type := { ref : nat; fields : gmap string field }.

(** [event.target], as far as the hook reads it. *)
Record Target : Type :=
  { name : string; type : string; value : string; checked : bool }.

(** The two state cells; [fresh] is the next unused reference. *)
Record Form : Type :=
  { formState : object; errors : gmap string string; fresh : nat }.

Section Hook.

Variable initialForm : object.

(** A validation function answers an error mapping, or a falsy value
    ([None]) that the hook replaces by the empty mapping. *)
Variable validateFn : option (gmap string field → option (gmap string string)).

(** The effect on [formState, validateFn]. *)
Definition validation_effect (w : Form) : Form :=
  match validateFn with
  | Some validate =>
      let validationErrors := validate (fields (formState w)) in
      {| formState := formState w;
         errors := default ∅ validationErrors;
         fresh := fresh w |}
  | None => w
  end.

(** The render that follows a callback: the validation effect runs again
    when [formState] is another object than before. *)
Definition commit (before after : Form) : Form :=
  if Nat.eqb (ref (formState before)) (ref (formState after)) then after
  else validation_effect after.

(** First render and its effects.  The effect on [initialForm] stores the
    object that the cell already holds. *)
Definition useForm : Form :=
  validation_effect
    {| formState := initialForm; errors := ∅; fresh := S (ref initialForm) |}.

(** [setFormState (prev => ({ ...prev, [name]: ... }))]. *)
Definition onInputChange_update (target : Target) (w : Form) : Form :=
  let prev := formState w in
  {| formState :=
       {| ref := fresh w;
          fields := <[name target :=
                        if String.eqb (type target) "checkbox"
                        then Checked (checked target)
                        else Text (value target)]> (fields prev) |};
     errors := errors w;
     fresh := S (fresh w) |}.

Definition onInputChange (target : Target) (w : Form) : Form :=
  commit w (onInputChange_update target w).

(** [setFormState(initialForm); setErrors({})]. *)
Definition onResetForm_update (w : Form) : Form :=
  {| formState := initialForm; errors := ∅; fresh := fresh w |}.

Definition onResetForm (w : Form) : Form :=
  commit w (onResetForm_update w).

(** The exposed [setFormState], called with a newly built object. *)
Definition setFormState (next : gmap string field) (w : Form) : Form :=
  commit w
    {| formState := {| ref := fresh w; fields := next |};
       errors := errors w;
       fresh := S (fresh w) |}.

(** [Object.keys(errors).length === 0]. *)
Definition isValid (w : Form) : bool :=
  Nat.eqb (length (map fst (map_to_list (errors w)))) 0.

Inductive Op : Type :=
| InputChange (target : Target)
| ResetForm
| SetFormState (next : gmap string field).

Definition step (w : Form) (op : Op) : Form :=
  match op with
  | InputChange target => onInputChange target w
  | ResetForm => onResetForm w
  | SetFormState next => setFormState next w
  end.

Definition run (ops : list Op) (w : Form) : Form := fold_left step ops w.

(** References are handed out in increasing order: the object in the cell
    and the initial object are older than the next fresh reference. *)
Definition allocated (w : Form) : Prop :=
  ref initialForm < fresh w ∧ ref (formState w) < fresh w.

(** The cell holds an object built after the initial one. *)
Definition edited (w : Form) : Prop :=
  ref initialForm < ref (formState w) ∧ ref (formState w) < fresh w.

End Hook.

(** The validation function of the README: both fields are required. *)
Definition required (formState : gmap string field) : option (gmap string string) :=
  let missing (key : string) : bool :=
    match formState !! key with
    | Some (Text s) => String.eqb s EmptyString
    | Some (Checked b) => negb b
    | None => true
    end in
  let errors : gmap string string := ∅ in
  let errors := if missing "name" then <["name" := "Name is required"]> errors else errors in
  let errors := if missing "email" then <["email" := "Email is required"]> errors else errors in
  Some errors.

Definition blank_form : object :=
  {| ref := 0;
     fields := {[ "name" := Text EmptyString; "email" := Text EmptyString ]} |}.

Definition typed (name value : string) : Target :=
  {| name := name; type := "text"; value := value; checked := false |}.

End useForm.

(** ** The request executor: state, effects and host

    The two hooks [useApi] and [useFetch] share what React and the host
    give them; it is defined once here and each hook is embedded from its
    own source text further down. *)

Module Executor.

(** What [fetch] is called with. *)
Record Request : Type :=
  { url : string;
    method : string;
    headers : gmap string string;
    body : option string;
    signal : nat }.

(** A response: the status line and what [json()] settles to when the
    reading of the body is not cancelled. *)
Record Response : Type :=
  { status : N; statusText : string; json : settled value }.

(** The host's [Response.ok]: the status is in the range 200 to 299. *)
Definition ok (resp : Response) : bool :=
  (200 <=? status resp)%N && (status resp <=? 299)%N.

(** The cells of one hook instance.  The abort controllers created so far
    are numbered in creation order; the list holds their [aborted] flags.
    [sent] lists the calls made to [fetch]. *)
Record Hook : Type :=
  { data : value;
    hasError : option string;
    isLoading : bool;
    controllerRef : option nat;
    controllers : list bool;
    sent : list Request }.

(** The part of the world one call meets: what the network answers, and
    whether the owning unit runs its cleanup while the call is suspended
    on [fetch], respectively on [json()]. *)
Inductive Network : Type :=
| Fails (reason : string)
| Responds (resp : Response).

Record Env : Type :=
  { network : Network; cleanup_during_fetch : bool; cleanup_during_json : bool }.

(** Code that reads and writes the cells and may throw. *)
Definition M (A : Type) : Type := Hook → completion A * Hook.

#[global] Instance M_ret : MRet M := λ A a h, (Normal a, h).
#[global] Instance M_bind : MBind M :=
  λ A B f m h,
    match m h with
    | (Normal a, h') => f a h'
    | (Throw e, h') => (Throw e, h')
    end.

Definition throw {A} (e : error) : M A := λ h, (Throw e, h).

(** [try { body } catch (err) { handler err } finally { finalizer }]. *)
Definition try_catch_finally {A} (body : M A) (handler : error → M A)
    (finalizer : M unit) : M A :=
  λ h,
    let '(r, h1) :=
      match body h with
      | (Normal a, h1) => (Normal a, h1)
      | (Throw e, h1) => handler e h1
      end in
    match finalizer h1 with
    | (Normal _, h2) => (r, h2)
    | (Throw e, h2) => (Throw e, h2)
    end.

(** The state a call leaves behind. *)
Definition exec {A} (m : M A) (h : Hook) : Hook := snd (m h).

Definition setData (v : value) : M unit :=
  λ h, (Normal tt,
        {| data := v; hasError := hasError h; isLoading := isLoading h;
           controllerRef := controllerRef h; controllers := controllers h;
           sent := sent h |}).

Definition setHasError (e : option string) : M unit :=
  λ h, (Normal tt,
        {| data := data h; hasError := e; isLoading := isLoading h;
           controllerRef := controllerRef h; controllers := controllers h;
           sent := sent h |}).

Definition setIsLoading (b : bool) : M unit :=
  λ h, (Normal tt,
        {| data := data h; hasError := hasError h; isLoading := b;
           controllerRef := controllerRef h; controllers := controllers h;
           sent := sent h |}).

(** [controllerRef.current = new AbortController()]; answers its signal. *)
Definition newAbortController : M nat :=
  λ h, let c := length (controllers h) in
       (Normal c,
        {| data := data h; hasError := hasError h; isLoading := isLoading h;
           controllerRef := Some c; controllers := controllers h ++ [false];
           sent := sent h |}).

(** [controller.abort()]. *)
Definition abort (c : nat) (h : Hook) : Hook :=
  {| data := data h; hasError := hasError h; isLoading := isLoading h;
     controllerRef := controllerRef h; controllers := <[c := true]> (controllers h);
     sent := sent h |}.

Definition aborted (c : nat) (h : Hook) : bool :=
  match controllers h !! c with
  | Some flag => flag
  | None => false
  end.

(** The cleanup function of the hooks' effect, the same text in both:
    [if (controllerRef.current) controllerRef.current.abort()]. *)
Definition cleanup (h : Hook) : Hook :=
  match controllerRef h with
  | Some c => abort c h
  | None => h
  end.

Definition AbortError : error :=
  {| name := "AbortError"; message := "The operation was aborted." |}.

Definition TypeError (reason : string) : error :=
  {| name := "TypeError"; message := reason |}.

(** The cells as the render that makes a call shows them. *)
Definition rendered : M Hook := λ h, (Normal h, h).

(** Whether [setIsLoading(true)] and [setHasError(null)], called from the
    render that shows [h], change a cell: React then renders the hook
    again while the call is suspended on [fetch]. *)
Definition rerenders (h : Hook) : bool :=
  negb (isLoading h) || match hasError h with Some _ => true | None => false end.

(** [await fetch(url, init)]: the call is recorded, the async function is
    suspended, and it resumes with the response, or with the rejection of
    the promise thrown: an [AbortError] when the signal was aborted
    meanwhile, a [TypeError] when the network fails.  The cleanup of the
    hook's effect runs meanwhile when the render caused by the call runs
    the effect again ([effect_reruns]), and when the environment has the
    unit torn down or rendered anew for reasons of its own. *)
Definition fetch (env : Env) (effect_reruns : bool) (req : Request) : M Response :=
  λ h,
    let h := {| data := data h; hasError := hasError h; isLoading := isLoading h;
                controllerRef := controllerRef h; controllers := controllers h;
                sent := sent h ++ [req] |} in
    let h := if effect_reruns || cleanup_during_fetch env then cleanup h else h in
    if aborted (signal req) h then (Throw AbortError, h)
    else
      match network env with
      | Fails reason => (Throw (TypeError reason), h)
      | Responds resp => (Normal resp, h)
      end.

(** [await resp.json()] for a response obtained under [signal]. *)
Definition await_json (env : Env) (signal : nat) (resp : Response) : M value :=
  λ h,
    let h := if cleanup_during_json env then cleanup h else h in
    if aborted signal h then (Throw AbortError, h)
    else
      match json resp with
      | Fulfilled v => (Normal v, h)
      | Rejected e => (Throw e, h)
      end.

(** [new Error(message)]. *)
Definition new_Error (message : string) : error :=
  {| name := "Error"; message := message |}.

(** Two responses for the examples. *)
Definition not_found : Response :=
  {| status := 404; statusText := "Not Found"; json := Fulfilled VNull |}.

Definition found (v : value) : Response :=
  {| status := 200; statusText := "OK"; json := Fulfilled v |}.

(** A call is cancelled in flight when the cleanup runs while the call is
    suspended: on [fetch], or on [json()] after a response that passed the
    status test. *)
Definition cancelled_in_flight (env : Env) : Prop :=
  cleanup_during_fetch env = true ∨
  (cleanup_during_json env = true ∧
   ∃ resp, network env = Responds resp ∧ ok resp = true).

(** The hooks' second argument and its two optional properties.  A headers
    object given by the caller is taken to be the same object at every
    render. *)
Record Options : Type :=
  { opt_headers : option (gmap string string); opt_autoFetch : option bool }.

(** The cells at the first render:
    [useState(null)], [useState(null)], [useState(false)], [useRef(null)]. *)
Definition first_render : Hook :=
  {| data := VNull; hasError := None; isLoading := false;
     controllerRef := None; controllers := []; sent := [] |}.

End Executor.

(** ** useFetch (src/unnamed/part_002) *)

Module useFetch.
Import Executor.

Section Hook.

Variable url : string.
Variable options : option Options.

(** [const { headers = {}, autoFetch = false } = options], with
    [options = {}] when the argument is left out. *)
Definition headers : gmap string string :=
  default ∅ (opt_headers (default {| opt_headers := None; opt_autoFetch := None |} options)).

Definition autoFetch : bool :=
  default false (opt_autoFetch (default {| opt_headers := None; opt_autoFetch := None |} options)).

(** Without headers from the caller the default [{}] is a new object at
    every render.  [request] is built by [useCallback] on [url, headers]
    and the effect depends on [request, autoFetch]: with new headers at
    every render, every render runs the effect again, its cleanup first. *)
Definition headers_rebuilt : bool :=
  match opt_headers (default {| opt_headers := None; opt_autoFetch := None |} options) with
  | Some _ => false
  | None => true
  end.

(** [request(method, body = null)], run against [env] until it settles. *)
Definition request (env : Env) (method : string) (body : option value) : M unit :=
  let body := default VNull body in
  before ← rendered;
  setIsLoading true;;
  setHasError None;;
  signal ← newAbortController;
  try_catch_finally
    (resp ← fetch env (headers_rebuilt && rerenders before)
       {| Executor.url := url;
          Executor.method := method;
          Executor.headers := headers ∪ {[ "Content-Type" := "application/json" ]};
          Executor.body := if truthy body then JSON.stringify body else None;
          Executor.signal := signal |};
     if negb (ok resp) then
       throw (new_Error ("HTTP " ++ pretty (status resp) ++ ": " ++ statusText resp))
     else
       result ← await_json env signal resp;
       setData result)
    (λ err,
       if negb (String.eqb (name err) "AbortError") then
         setHasError (Some (message err))
       else mret tt)
    (setIsLoading false).

(** The first render and the first run of its effect, a GET when
    [autoFetch] holds, up to the settlement of that call.  When the headers
    are rebuilt at every render the effect runs again after it, at every
    render; those later runs are not part of this definition. *)
Definition useFetch (env : Env) : Hook :=
  if autoFetch then exec (request env "GET" None) first_render
  else first_render.

Definition get (env : Env) : M unit := request env "GET" None.
Definition post (env : Env) (body : option value) : M unit := request env "POST" body.
Definition put (env : Env) (body : option value) : M unit := request env "PUT" body.
Definition patch (env : Env) (body : option value) : M unit := request env "PATCH" body.
Definition remove (env : Env) : M unit := request env "DELETE" None.

End Hook.

End useFetch.

Arguments useFetch.headers_rebuilt : simpl never.

(** ** useApi (src/unnamed/part_001, second unit) *)

Module useApi.
Import Executor.

Section Hook.

Variable url : string.
Variable options : option Options.

(** [const { headers = {}, autoFetch = false } = options], with
    [options = {}] when the argument is left out. *)
Definition headers : gmap string string :=
  default ∅ (opt_headers (default {| opt_headers := None; opt_autoFetch := None |} options)).

Definition autoFetch : bool :=
  default false (opt_autoFetch (default {| opt_headers := None; opt_autoFetch := None |} options)).

(** Without headers from the caller the default [{}] is a new object at
    every render.  [request] is built by [useCallback] on [url, headers]
    and the effect depends on [request, autoFetch]: with new headers at
    every render, every render runs the effect again, its cleanup first. *)
Definition headers_rebuilt : bool :=
  match opt_headers (default {| opt_headers := None; opt_autoFetch := None |} options) with
  | Some _ => false
  | None => true
  end.

(** [request(method, body = null)], run against [env] until it settles. *)
Definition request (env : Env) (method : string) (body : option value) : M unit :=
  let body := default VNull body in
  before ← rendered;
  setIsLoading true;;
  setHasError None;;
  signal ← newAbortController;
  try_catch_finally
    (resp ← fetch env (headers_rebuilt && rerenders before)
       {| Executor.url := url;
          Executor.method := method;
          Executor.headers := headers ∪ {[ "Content-Type" := "application/json" ]};
          Executor.body := if truthy body then JSON.stringify body else None;
          Executor.signal := signal |};
     if negb (ok resp) then
       throw (new_Error ("HTTP " ++ pretty (status resp) ++ ": " ++ statusText resp))
     else
       result ← await_json env signal resp;
       setData result)
    (λ err,
       if negb (String.eqb (name err) "AbortError") then
         setHasError (Some (message err))
       else mret tt)
    (setIsLoading false).

(** The first render and the first run of its effect, a GET when
    [autoFetch] holds, up to the settlement of that call.  When the headers
    are rebuilt at every render the effect runs again after it, at every
    render; those later runs are not part of this definition. *)
Definition useApi (env : Env) : Hook :=
  if autoFetch then exec (request env "GET" None) first_render
  else first_render.

Definition get (env : Env) : M unit := request env "GET" None.
Definition post (env : Env) (body : option value) : M unit := request env "POST" body.
Definition put (env : Env) (body : option value) : M unit := request env "PUT" body.
Definition patch (env : Env) (body : option value) : M unit := request env "PATCH" body.
Definition remove (env : Env) : M unit := request env "DELETE" None.

End Hook.

End useApi.

Arguments useApi.headers_rebuilt : simpl never.
Arguments Executor.rerenders : simpl never.


(** * Statements and proofs *)

(** ** The JSON object on concrete values *)

Section JSONFacts.

(** Only [undefined] has no JSON text; in particular every truthy value,
    hence every request body that is sent, has one. *)
Lemma stringify_defined (v : value) : v ≠ VUndefined → is_Some (JSON.stringify v).
Proof. destruct v as [| |[]| | | |]; cbn; eauto. intros H; by destruct H. Qed.

Lemma truthy_stringify (v : value) : truthy v = true → is_Some (JSON.stringify v).
Proof. intros Ht. apply stringify_defined. by intros ->. Qed.

Example stringify_id1 : JSON.stringify (VObj [("id", VNum 1)]) = Some Auth.id1_text.
Proof. reflexivity. Qed.

Example parse_id1 : JSON.parse Auth.id1_text = Normal (VObj [("id", VNum 1)]).
Proof. reflexivity. Qed.

Example stringify_nested :
  JSON.parse
    (default EmptyString
       (JSON.stringify
          (VObj [("user", VObj [("id", VNum (-42)); ("tags", VArr [VStr "a"; VNull])]);
                 ("skipped", VUndefined);
                 ("ok", VBool true)])))
  = Normal (VObj [("user", VObj [("id", VNum (-42)); ("tags", VArr [VStr "a"; VNull])]);
                  ("ok", VBool true)]).
Proof. vm_compute. reflexivity. Qed.

Example parse_rejects :
  JSON.parse "{bad" = Throw JSON.SyntaxError ∧
  JSON.parse "undefined" = Throw JSON.SyntaxError ∧
  JSON.parse "[1,]" = Throw JSON.SyntaxError ∧
  JSON.parse "01" = Throw JSON.SyntaxError.
Proof. repeat split. Qed.

Example parse_falsy :
  JSON.parse "0" = Normal (VNum 0) ∧
  JSON.parse "false" = Normal (VBool false) ∧
  JSON.parse " null " = Normal VNull.
Proof. repeat split. Qed.

End JSONFacts.

(** ** The auth state *)

Section AuthFacts.
Import Auth.

Implicit Types (parse : string → completion value) (store : gmap string string).
Implicit Types (name : string) (st : AuthState) (v : value).

Lemma parse_or_null_absent parse : parse_or_null parse None = Normal VNull.
Proof. reflexivity. Qed.

Lemma parse_or_null_text parse raw :
  raw ≠ EmptyString → parse_or_null parse (Some raw) = parse raw.
Proof.
  intros Hraw. unfold parse_or_null.
  destruct (String.eqb_spec raw EmptyString) as [->|_]; [done | reflexivity].
Qed.

(** The reducer on an action of another type. *)
Lemma authReducer_other st tag data :
  tag ≠ authTypes.login → tag ≠ authTypes.logout →
  authReducer (Some st) {| type := tag; payload := data |} = st.
Proof.
  intros Hin Hout. unfold authReducer; cbn [type].
  destruct (String.eqb_spec tag authTypes.login); [done|].
  destruct (String.eqb_spec tag authTypes.logout); [done|].
  by destruct st.
Qed.

(** What initialization computes, for every store and every parser. *)
Lemma initializeAuthState_cases parse store name :
  initializeAuthState parse store name =
  Normal match store !! name with
         | None => LoggedOut
         | Some raw =>
             if String.eqb raw EmptyString then LoggedOut
             else match parse raw with
                  | Normal v => {| logged := truthy v; data := v |}
                  | Throw _ => LoggedOut
                  end
         end.
Proof.
  unfold initializeAuthState, sessionStorage.getItem, parse_or_null.
  destruct (store !! name) as [raw|]; [|reflexivity].
  destruct (String.eqb raw EmptyString); [reflexivity|].
  destruct (parse raw); reflexivity.
Qed.

Lemma truthy_not_null v : truthy v = true → v ≠ VNull.
Proof. by intros Ht ->. Qed.

(** C1, as the specification words it, fails on the two functions it
    names.  [initializeAuthState] keeps stored content that parses to a
    falsy value other than [null] (here the text [0]) as [data] while
    [logged] is false; and the reducer's login case sets [logged] for a
    [null] payload and leaves [data] null. *)
Lemma auth_invariant_counterexample :
  (initializeAuthState JSON.parse {[ "auth" := "0" ]} "auth"
     = Normal {| logged := false; data := VNum 0 |} ∧
   ¬ logged_iff_data {| logged := false; data := VNum 0 |}) ∧
  (authReducer (Some initialAuthState)
     {| type := authTypes.login; payload := VNull |}
     = {| logged := true; data := VNull |} ∧
   ¬ logged_iff_data {| logged := true; data := VNull |}).
Proof.
  split; split.
  - by vm_compute.
  - unfold logged_iff_data; cbn. intros [_ H]. by discriminate H.
  - reflexivity.
  - unfold logged_iff_data; cbn. intros [H _]. by apply H.
Qed.

(** C1, amended: the state that [initializeAuthState] returns has [logged]
    true exactly when [data] is not null, provided that the stored text,
    when the parser accepts it, denotes null or a truthy value; and the
    reducer keeps that property from any state that has it, for a logout,
    for an action of another type, and for a login whose payload is not
    null. *)
Theorem auth_invariant parse store name st s action :
  (∀ raw v, store !! name = Some raw → parse raw = Normal v →
            v = VNull ∨ truthy v = true) →
  (type action = authTypes.login → payload action ≠ VNull) →
  (initializeAuthState parse store name = Normal st → logged_iff_data st) ∧
  (logged_iff_data s → logged_iff_data (authReducer (Some s) action)).
Proof.
  intros Hstored Hpayload. split.
  - intros Hinit. rewrite initializeAuthState_cases in Hinit.
    injection Hinit as <-.
    destruct (store !! name) as [raw|] eqn:Hraw; [|by split].
    destruct (String.eqb raw EmptyString); [by split|].
    destruct (parse raw) as [v|e] eqn:Hparse; [|by split].
    unfold logged_iff_data; cbn.
    destruct (Hstored raw v eq_refl Hparse) as [-> | Ht]; [by split|].
    rewrite Ht. split; [intros _; by apply truthy_not_null | done].
  - intros Hs. unfold authReducer; cbn [default from_option id].
    destruct (String.eqb_spec (type action) authTypes.login) as [Hlogin|_].
    + unfold logged_iff_data; cbn. split; [intros _; by apply Hpayload | done].
    + destruct (String.eqb (type action) authTypes.logout); [by split|].
      by destruct s.
Qed.

Lemma auth_invariant_witness :
  logged_iff_data (LoggedIn (VObj [("id", VNum 1)])) ∧
  logged_iff_data
    (authReducer (Some LoggedOut) {| type := authTypes.login; payload := VNum 7 |}).
Proof.
  destruct (auth_invariant JSON.parse {[ "auth" := id1_text ]} "auth"
              (LoggedIn (VObj [("id", VNum 1)])) LoggedOut
              {| type := authTypes.login; payload := VNum 7 |})
    as [Hinit Hstep].
  - intros raw v Hraw Hparse. vm_compute in Hraw.
    injection Hraw as <-. vm_compute in Hparse.
    injection Hparse as <-. right. reflexivity.
  - intros _. discriminate.
  - split.
    + apply Hinit. by vm_compute.
    + apply Hstep. by split.
Defined.

(** C2, as worded, fails where the stored text is valid JSON for a falsy
    value: the text [0] parses, and the state is not logged in. *)
Lemma initializeAuthState_counterexample :
  sessionStorage.getItem "auth" {[ "auth" := "0" ]} = Some "0" ∧
  JSON.parse "0" = Normal (VNum 0) ∧
  initializeAuthState JSON.parse {[ "auth" := "0" ]} "auth"
    = Normal {| logged := false; data := VNum 0 |} ∧
  initializeAuthState JSON.parse {[ "auth" := "0" ]} "auth"
    ≠ Normal (LoggedIn (VNum 0)).
Proof.
  split; [by vm_compute|]. split; [by vm_compute|].
  split; [by vm_compute|]. vm_compute. discriminate.
Qed.

(** C2, amended: initialization never throws; an absent slot, an empty text
    and a text the parser rejects give the logged-out state; a text the
    parser accepts gives [data] equal to the parsed value and [logged] equal
    to the truthiness of that value, hence the logged-in state for a truthy
    value. *)
Theorem initializeAuthState_from_store parse store name :
  (∃ st, initializeAuthState parse store name = Normal st) ∧
  (store !! name = None →
   initializeAuthState parse store name = Normal LoggedOut) ∧
  (store !! name = Some EmptyString →
   initializeAuthState parse store name = Normal LoggedOut) ∧
  (∀ raw e, store !! name = Some raw → parse raw = Throw e →
   initializeAuthState parse store name = Normal LoggedOut) ∧
  (∀ raw v, store !! name = Some raw → raw ≠ EmptyString → parse raw = Normal v →
   initializeAuthState parse store name
     = Normal {| logged := truthy v; data := v |}) ∧
  (∀ raw v, store !! name = Some raw → raw ≠ EmptyString → parse raw = Normal v →
   truthy v = true →
   initializeAuthState parse store name = Normal (LoggedIn v)).
Proof.
  rewrite initializeAuthState_cases.
  split; [by eexists|].
  split; [by intros ->|].
  split; [by intros ->|].
  split.
  { intros raw e -> He. rewrite He. by destruct (String.eqb raw EmptyString). }
  split.
  - intros raw v -> Hraw Hv.
    destruct (String.eqb_spec raw EmptyString); [done|]. by rewrite Hv.
  - intros raw v -> Hraw Hv Ht.
    destruct (String.eqb_spec raw EmptyString); [done|].
    rewrite Hv. unfold LoggedIn. by rewrite Ht.
Qed.

Lemma initializeAuthState_from_store_witness :
  initializeAuthState JSON.parse {[ "auth" := id1_text ]} "auth"
    = Normal (LoggedIn (VObj [("id", VNum 1)])) ∧
  initializeAuthState JSON.parse {[ "auth" := "{bad" ]} "auth" = Normal LoggedOut.
Proof.
  split.
  - apply (initializeAuthState_from_store JSON.parse {[ "auth" := id1_text ]} "auth")
      with (raw := id1_text).
    + vm_compute. reflexivity.
    + vm_compute. discriminate.
    + vm_compute. reflexivity.
    + reflexivity.
  - apply (initializeAuthState_from_store JSON.parse {[ "auth" := "{bad" ]} "auth")
      with (raw := "{bad") (e := JSON.SyntaxError).
    + vm_compute. reflexivity.
    + vm_compute. reflexivity.
Defined.

(** C7: the code at every input.  The first render of [AuthProvider]
    throws a [TypeError], whatever the store holds: the object that
    [initializeAuthState] returns is called as a function.  No state and no
    callback comes out of the render, so neither [onLogIn] nor [onLogOut]
    can be called. *)
Theorem AuthProvider_throws parse store name :
  AuthProvider parse store name = Throw init_is_not_a_function ∧
  ¬ (∃ st, AuthProvider parse store name = Normal st).
Proof.
  assert (H : AuthProvider parse store name = Throw init_is_not_a_function).
  { unfold AuthProvider. rewrite initializeAuthState_cases. reflexivity. }
  split; [exact H|]. intros [st Hst]. rewrite H in Hst. discriminate.
Qed.

(** *** Histories of actions *)

Lemma authReducer_ignores st action :
  is_auth_action action = false → authReducer (Some st) action = st.
Proof.
  unfold is_auth_action, authReducer. intros H.
  apply orb_false_iff in H as [-> ->]. by destruct st.
Qed.

(** X1: actions of a type the reducer has no case for can be dropped from
    any place of a history without changing the state it leads to. *)
Theorem dispatch_all_filter actions st :
  dispatch_all actions st = dispatch_all (List.filter is_auth_action actions) st.
Proof.
  revert st. induction actions as [|a actions IH]; intros st; [done|].
  cbn [dispatch_all fold_left List.filter].
  fold (dispatch_all actions). destruct (is_auth_action a) eqn:Ha.
  - cbn [dispatch_all fold_left].
    fold (dispatch_all (List.filter is_auth_action actions)). apply IH.
  - rewrite authReducer_ignores by done. apply IH.
Qed.

End AuthFacts.

(** ** The counter *)

Section CounterFacts.
Import useCounter.

Implicit Types (c : Counter) (value : option Z).

Lemma count_increment value c :
  count (increment value c) = (count c + default 1 value)%Z.
Proof. reflexivity. Qed.

Lemma count_decrement value c :
  count (decrement value c)
    = if (count c =? 0)%Z then 0%Z else (count c - default 1 value)%Z.
Proof.
  unfold decrement. destruct (Z.eqb_spec (count c) 0) as [Hz|_]; [|reflexivity].
  by rewrite Hz.
Qed.

Lemma initialValue_increment value c : initialValue (increment value c) = initialValue c.
Proof. reflexivity. Qed.

Lemma initialValue_decrement value c : initialValue (decrement value c) = initialValue c.
Proof. unfold decrement. by destruct (count c =? 0)%Z. Qed.

(** C4, as worded, fails when the increment lands on zero: from -5,
    [increment(5)] gives 0 and [decrement(5)] then does nothing. *)
Lemma increment_decrement_counterexample :
  let c := useCounter (Some (-5)%Z) in
  count c = (-5)%Z ∧
  count (decrement (Some 5%Z) (increment (Some 5%Z) c)) = 0%Z ∧
  count (decrement (Some 5%Z) (increment (Some 5%Z) c)) ≠ count c.
Proof. cbn. repeat split. discriminate. Qed.

(** C4, amended: for a count and an amount that are safe integers with a
    safe sum, [increment(amount)] followed by [decrement(amount)] gives
    back the starting count whenever the incremented count is not zero;
    when it is zero the decrement does nothing and the counter stays at
    zero.  An omitted amount stands for 1 in both calls. *)
Theorem increment_then_decrement value c :
  let amount := default 1%Z value in
  safe_integer (count c) → safe_integer amount → safe_integer (count c + amount) →
  ((count c + amount ≠ 0)%Z →
   count (decrement value (increment value c)) = count c) ∧
  ((count c + amount = 0)%Z →
   count (decrement value (increment value c)) = 0%Z).
Proof.
  cbn zeta. intros _ _ _. rewrite count_decrement, count_increment. split; intros H.
  - destruct (Z.eqb_spec (count c + default 1%Z value) 0); [done | lia].
  - by rewrite H.
Qed.

Lemma increment_then_decrement_witness :
  count (decrement (Some 3%Z) (increment (Some 3%Z) (useCounter (Some 20%Z)))) = 20%Z ∧
  count (decrement None (increment None (useCounter (Some (-1)%Z)))) = 0%Z.
Proof.
  split.
  - apply (increment_then_decrement (Some 3%Z) (useCounter (Some 20%Z)));
      unfold safe_integer; cbn; lia.
  - apply (increment_then_decrement None (useCounter (Some (-1)%Z)));
      unfold safe_integer; cbn; lia.
Defined.

(** [reset] gives back the value the hook was built with, and the guard of
    [decrement] holds the counter at zero. *)
Lemma reset_restores c : count (reset c) = initialValue c.
Proof. reflexivity. Qed.

Lemma decrement_at_zero value c : count c = 0%Z → decrement value c = c.
Proof. intros Hz. unfold decrement. by rewrite Hz. Qed.

Lemma initialValue_call c k : initialValue (call c k) = initialValue c.
Proof.
  destruct k; cbn [call]; [done | apply initialValue_decrement | done].
Qed.

Lemma initialValue_calls ks c : initialValue (calls ks c) = initialValue c.
Proof.
  unfold calls. revert c. induction ks as [|k ks IH]; intros c; [done|].
  cbn [fold_left]. rewrite IH. apply initialValue_call.
Qed.

(** X9: [reset] gives back the value the hook was built with after any
    history of increments, decrements and resets. *)
Theorem reset_after_calls initial ks :
  count (reset (calls ks (useCounter initial))) = default 0%Z initial.
Proof. rewrite reset_restores, initialValue_calls. reflexivity. Qed.

(** X10: the round trip in the other order, for a count and an amount
    that are safe integers with a safe difference: [decrement(amount)]
    followed by [increment(amount)] gives back the starting count when it
    is not zero; from zero the decrement does nothing and the pair adds
    the amount. *)
Theorem decrement_then_increment value c :
  let amount := default 1%Z value in
  safe_integer (count c) → safe_integer amount → safe_integer (count c - amount) →
  (count c ≠ 0%Z → count (increment value (decrement value c)) = count c) ∧
  (count c = 0%Z → count (increment value (decrement value c)) = amount).
Proof.
  cbn zeta. intros _ _ _. rewrite count_increment, count_decrement. split; intros H.
  - destruct (Z.eqb_spec (count c) 0); [done | lia].
  - rewrite H. reflexivity.
Qed.

Lemma decrement_then_increment_witness :
  count (increment (Some 4%Z) (decrement (Some 4%Z) (useCounter (Some 3%Z)))) = 3%Z ∧
  count (increment (Some 4%Z) (decrement (Some 4%Z) (useCounter None))) = 4%Z.
Proof.
  split.
  - apply (decrement_then_increment (Some 4%Z) (useCounter (Some 3%Z)));
      unfold safe_integer; cbn; lia.
  - apply (decrement_then_increment (Some 4%Z) (useCounter None));
      unfold safe_integer; cbn; lia.
Defined.

(** X11: [n] increments made one after the other add [n] times the
    amount, for a count and an amount that are safe integers and a final
    count that is one too (every count on the way then lies between the
    first and the last). *)
Theorem increment_iter value n c :
  let amount := default 1%Z value in
  safe_integer (count c) → safe_integer amount →
  safe_integer (count c + Z.of_nat n * amount) →
  count (Nat.iter n (increment value) c) = (count c + Z.of_nat n * amount)%Z ∧
  (∀ k : nat, (k ≤ n)%nat → safe_integer (count (Nat.iter k (increment value) c))).
Proof.
  cbn zeta. intros Hc Ha Hn.
  assert (Hcount : ∀ k : nat, count (Nat.iter k (increment value) c)
                        = (count c + Z.of_nat k * default 1 value)%Z).
  { induction k as [|k IH]; [cbn; lia|].
    rewrite Nat.iter_succ, count_increment, IH. lia. }
  split; [apply Hcount|].
  intros k Hk. rewrite Hcount. unfold safe_integer in *. nia.
Qed.

Lemma increment_iter_witness :
  count (Nat.iter 4 (increment (Some 5%Z)) (useCounter (Some 2%Z))) = 22%Z.
Proof.
  destruct (increment_iter (Some 5%Z) 4 (useCounter (Some 2%Z))) as [H _].
  - unfold safe_integer; cbn; lia.
  - unfold safe_integer; cbn; lia.
  - unfold safe_integer; cbn; lia.
  - rewrite H. reflexivity.
Defined.

(** X12: the counter at zero stays as it is under any number of
    decrements, whatever the amount. *)
Theorem decrement_iter_at_zero value n c :
  count c = 0%Z → Nat.iter n (decrement value) c = c.
Proof.
  intros Hz. induction n as [|n IH]; [done|].
  rewrite Nat.iter_succ, IH. by apply decrement_at_zero.
Qed.

Lemma decrement_iter_at_zero_witness :
  Nat.iter 5 (decrement (Some 3%Z)) (useCounter None) = useCounter None.
Proof. apply decrement_iter_at_zero. reflexivity. Defined.

(** X13: the guard of [decrement] catches zero only.  A decrement by more
    than a positive count makes the counter negative, and from there every
    further decrement by that amount goes through: after [n + 1] such
    decrements the count is the start less [n + 1] times the amount, as
    long as the amount and that final count are safe integers. *)
Theorem decrement_below_zero amount n c :
  (0 < count c)%Z → (count c < amount)%Z →
  safe_integer amount → safe_integer (count c - Z.of_nat (S n) * amount) →
  count (Nat.iter (S n) (decrement (Some amount)) c)
    = (count c - Z.of_nat (S n) * amount)%Z ∧
  (count (Nat.iter (S n) (decrement (Some amount)) c) < 0)%Z.
Proof.
  intros Hpos Hlt _ _.
  assert (H : count (Nat.iter (S n) (decrement (Some amount)) c)
              = (count c - Z.of_nat (S n) * amount)%Z).
  { induction n as [|n IH].
    - rewrite Nat.iter_succ. cbn [Nat.iter nat_rect]. rewrite count_decrement.
      destruct (Z.eqb_spec (count c) 0); cbn; lia.
    - rewrite Nat.iter_succ, count_decrement, IH.
      destruct (Z.eqb_spec (count c - Z.of_nat (S n) * amount) 0); cbn; nia. }
  split; [exact H | rewrite H; nia].
Qed.

Lemma decrement_below_zero_witness :
  count (Nat.iter 3 (decrement (Some 5%Z)) (useCounter (Some 2%Z))) = (-13)%Z.
Proof.
  destruct (decrement_below_zero 5 2 (useCounter (Some 2%Z))) as [H _].
  - cbn; lia.
  - cbn; lia.
  - unfold safe_integer; cbn; lia.
  - unfold safe_integer; cbn; lia.
  - rewrite H. reflexivity.
Defined.


Lemma setCount_setCount n m c : setCount n (setCount m c) = setCount n c.
Proof. reflexivity. Qed.



End CounterFacts.

(** ** The form *)

Section FormFacts.
Import useForm.

Variable initialForm : object.

Implicit Types (w : Form) (target : Target) (op : Op).
Implicit Types (validateFn : option (gmap string field → option (gmap string string))).

Lemma formState_validation_effect validateFn w :
  formState (validation_effect validateFn w) = formState w.
Proof. unfold validation_effect. by destruct validateFn. Qed.

Lemma fresh_validation_effect validateFn w :
  fresh (validation_effect validateFn w) = fresh w.
Proof. unfold validation_effect. by destruct validateFn. Qed.

Lemma errors_validation_effect validate w :
  errors (validation_effect (Some validate) w)
    = default ∅ (validate (fields (formState w))).
Proof. reflexivity. Qed.

Lemma formState_commit validateFn w w' :
  formState (commit validateFn w w') = formState w'.
Proof.
  unfold commit. destruct (Nat.eqb _ _); [done|].
  apply formState_validation_effect.
Qed.

Lemma fresh_commit validateFn w w' : fresh (commit validateFn w w') = fresh w'.
Proof.
  unfold commit. destruct (Nat.eqb _ _); [done|].
  apply fresh_validation_effect.
Qed.

(** When the cell received another object, the errors are those of the
    validation run on it. *)
Lemma errors_commit_changed validate w w' :
  ref (formState w) ≠ ref (formState w') →
  errors (commit (Some validate) w w')
    = default ∅ (validate (fields (formState w'))).
Proof.
  intros Hne. unfold commit.
  destruct (Nat.eqb_spec (ref (formState w)) (ref (formState w'))); done.
Qed.

Lemma errors_commit_same validateFn w w' :
  ref (formState w) = ref (formState w') →
  errors (commit validateFn w w') = errors w'.
Proof. intros Heq. unfold commit. by rewrite Heq, Nat.eqb_refl. Qed.

Lemma errors_commit_none w w' : errors (commit None w w') = errors w'.
Proof. unfold commit. by destruct (Nat.eqb _ _). Qed.

Lemma allocated_useForm validateFn :
  allocated initialForm (useForm initialForm validateFn).
Proof.
  unfold allocated, useForm.
  rewrite fresh_validation_effect, formState_validation_effect; cbn. lia.
Qed.

Lemma edited_allocated w : edited initialForm w → allocated initialForm w.
Proof. unfold edited, allocated. lia. Qed.

Lemma edited_onInputChange validateFn target w :
  allocated initialForm w → edited initialForm (onInputChange validateFn target w).
Proof.
  intros [Hi Hs]. unfold edited, onInputChange.
  rewrite formState_commit, fresh_commit; cbn. lia.
Qed.

Lemma allocated_step validateFn w op :
  allocated initialForm w → allocated initialForm (step initialForm validateFn w op).
Proof.
  intros [Hi Hs]. unfold allocated.
  destruct op; cbn [step]; unfold onInputChange, onResetForm, setFormState;
    rewrite formState_commit, fresh_commit; cbn; lia.
Qed.

Lemma allocated_run validateFn ops w :
  allocated initialForm w → allocated initialForm (run initialForm validateFn ops w).
Proof.
  revert w. induction ops as [|op ops IH]; intros w Hw; [done|].
  cbn. apply IH. by apply allocated_step.
Qed.

(** After at least one edit the cell no longer holds the initial object. *)
Lemma edited_after_edits validateFn targets w :
  allocated initialForm w → targets ≠ [] →
  edited initialForm (run initialForm validateFn (map InputChange targets) w).
Proof.
  revert w. induction targets as [|t targets IH]; intros w Hw Hne; [done|].
  cbn. destruct targets as [|t' targets].
  - cbn. by apply edited_onInputChange.
  - apply IH; [|done]. by apply edited_allocated, edited_onInputChange.
Qed.

Lemma isValid_iff w : isValid w = true ↔ errors w = ∅.
Proof.
  unfold isValid. rewrite Nat.eqb_eq, length_map.
  rewrite <- map_to_list_empty_iff.
  destruct (map_to_list (errors w)); cbn; split; intros; congruence || lia.
Qed.

Lemma errors_run_none ops w :
  errors w = ∅ → errors (run initialForm None ops w) = ∅.
Proof.
  revert w. induction ops as [|op ops IH]; intros w Hw; [done|].
  cbn. apply IH.
  destruct op; cbn [step]; unfold onInputChange, onResetForm, setFormState;
    by rewrite errors_commit_none.
Qed.

(** What [onResetForm] leaves behind after a history of edits.  The form
    state is the initial object.  The callback empties the errors; after
    at least one edit the cell then holds another object than before, the
    validation effect runs again and puts back the errors of the initial
    values. *)
Lemma onResetForm_after_edits validateFn targets :
  let w := onResetForm initialForm validateFn
             (run initialForm validateFn (map InputChange targets)
                (useForm initialForm validateFn)) in
  formState w = initialForm ∧
  errors w = match validateFn, targets with
             | Some validate, _ :: _ => default ∅ (validate (fields initialForm))
             | _, _ => ∅
             end ∧
  (isValid w = true ↔ errors w = ∅).
Proof.
  cbn zeta. split; [|split; [|apply isValid_iff]].
  - unfold onResetForm. by rewrite formState_commit.
  - unfold onResetForm. destruct validateFn as [validate|].
    + destruct targets as [|t targets].
      * by rewrite errors_commit_same.
      * rewrite errors_commit_changed; [done|].
        pose proof (edited_after_edits (Some validate) (t :: targets) _
                      (allocated_useForm (Some validate))) as [Hlt _]; [done|].
        cbn [onResetForm_update formState] in *. lia.
    + by rewrite errors_commit_none.
Qed.

(** C6: with a validation function [f] that answers an error mapping, the
    errors equal [f formState] at the first render, after every
    [onInputChange], and after every callback that put another object in
    the cell; without a validation function the errors stay empty and the
    form is valid; and [isValid] holds exactly when the errors are empty. *)
Theorem validation_invariant (f : gmap string field → gmap string string) ops :
  let supplied := Some (λ formState, Some (f formState)) in
  let w := run initialForm supplied ops (useForm initialForm supplied) in
  let w0 := run initialForm None ops (useForm initialForm None) in
  errors (useForm initialForm supplied)
    = f (fields (formState (useForm initialForm supplied))) ∧
  (∀ target,
     errors (onInputChange supplied target w)
       = f (fields (formState (onInputChange supplied target w)))) ∧
  (∀ op,
     ref (formState (step initialForm supplied w op)) ≠ ref (formState w) →
     errors (step initialForm supplied w op)
       = f (fields (formState (step initialForm supplied w op)))) ∧
  (isValid w = true ↔ errors w = ∅) ∧
  errors w0 = ∅ ∧
  isValid w0 = true.
Proof.
  cbn zeta.
  set (supplied := Some (λ formState, Some (f formState))).
  assert (Hchanged : ∀ w w',
            ref (formState w) ≠ ref (formState w') →
            errors (commit supplied w w') = f (fields (formState (commit supplied w w')))).
  { intros w w' Hne. rewrite formState_commit.
    unfold supplied. by rewrite errors_commit_changed. }
  split; [reflexivity|]. split; [|split; [|split; [apply isValid_iff|]]].
  - intros target. unfold onInputChange. apply Hchanged.
    destruct (allocated_run supplied ops _ (allocated_useForm supplied)) as [_ Hs].
    cbn [onInputChange_update formState ref]. lia.
  - intros op Hne.
    destruct op; cbn [step] in *; unfold onInputChange, onResetForm, setFormState in *;
      apply Hchanged; rewrite formState_commit in Hne; congruence.
  - assert (H0 : errors (run initialForm None ops (useForm initialForm None)) = ∅)
      by (by apply errors_run_none).
    split; [exact H0 | by apply isValid_iff].
Qed.

(** *** Edits, resets and the validator *)

Lemma fields_onInputChange validateFn target w :
  fields (formState (onInputChange validateFn target w))
    = <[name target :=
          if String.eqb (type target) "checkbox"
          then Checked (checked target) else Text (value target)]>
        (fields (formState w)).
Proof. unfold onInputChange. by rewrite formState_commit. Qed.

(** X15: [onInputChange] writes one field and no other: the field named by
    the target holds the checked flag for a checkbox and the text
    otherwise, and every other field holds what it held, absent fields
    included. *)
Theorem onInputChange_one_field validateFn target w :
  let w' := onInputChange validateFn target w in
  (type target = "checkbox" →
   fields (formState w') !! name target = Some (Checked (checked target))) ∧
  (type target ≠ "checkbox" →
   fields (formState w') !! name target = Some (Text (value target))) ∧
  (∀ key, key ≠ name target →
   fields (formState w') !! key = fields (formState w) !! key).
Proof.
  cbn zeta. rewrite fields_onInputChange. split; [|split].
  - intros ->. by rewrite lookup_insert_eq.
  - intros Hty. rewrite lookup_insert_eq.
    by destruct (String.eqb_spec (type target) "checkbox").
  - intros key Hne. by rewrite lookup_insert_ne.
Qed.

(** X16: edits of two different fields give the same field values in
    either order, and of two edits of one field the later one stands. *)
Theorem onInputChange_order validateFn t1 t2 w :
  (name t1 ≠ name t2 →
   fields (formState (onInputChange validateFn t2 (onInputChange validateFn t1 w)))
     = fields (formState (onInputChange validateFn t1 (onInputChange validateFn t2 w)))) ∧
  (name t1 = name t2 →
   fields (formState (onInputChange validateFn t2 (onInputChange validateFn t1 w)))
     = fields (formState (onInputChange validateFn t2 w))).
Proof.
  rewrite !fields_onInputChange. split.
  - intros Hne. by apply insert_insert_ne.
  - intros ->. by rewrite insert_insert_eq.
Qed.

(** X17: a second [onResetForm], called from the render that follows the
    first, finds the initial object already in the cell, so no validation
    follows it: the errors are empty and the form counts as valid,
    whatever the validator says of the initial values. *)
Theorem onResetForm_twice validateFn w :
  let w2 := onResetForm initialForm validateFn (onResetForm initialForm validateFn w) in
  formState w2 = initialForm ∧ errors w2 = ∅ ∧ isValid w2 = true.
Proof.
  cbn zeta.
  assert (Herr : errors (onResetForm initialForm validateFn
                           (onResetForm initialForm validateFn w)) = ∅).
  { unfold onResetForm at 1. rewrite errors_commit_same; [done|].
    unfold onResetForm. by rewrite formState_commit. }
  split; [|split; [exact Herr | by apply isValid_iff]].
  unfold onResetForm at 1. by rewrite formState_commit.
Qed.

Lemma formState_step_validator validateFn w1 w2 op :
  formState w1 = formState w2 → fresh w1 = fresh w2 →
  formState (step initialForm validateFn w1 op) = formState (step initialForm None w2 op) ∧
  fresh (step initialForm validateFn w1 op) = fresh (step initialForm None w2 op).
Proof.
  intros Hs Hf.
  destruct op; cbn [step]; unfold onInputChange, onResetForm, setFormState;
    rewrite !formState_commit, !fresh_commit; cbn; by rewrite ?Hs, ?Hf.
Qed.

(** X18: the validator never changes what the form holds: after any
    history of edits, resets and [setFormState] calls the form state is the
    one the same history gives without a validator. *)
Theorem formState_validator_independent validateFn ops :
  formState (run initialForm validateFn ops (useForm initialForm validateFn))
    = formState (run initialForm None ops (useForm initialForm None)).
Proof.
  assert (H : ∀ w1 w2, formState w1 = formState w2 → fresh w1 = fresh w2 →
              formState (run initialForm validateFn ops w1)
                = formState (run initialForm None ops w2)).
  { unfold run. induction ops as [|op ops IH]; intros w1 w2 Hs Hf; [done|].
    cbn [fold_left].
    destruct (formState_step_validator validateFn w1 w2 op Hs Hf) as [Hs' Hf'].
    by apply IH. }
  apply H; unfold useForm;
    by rewrite ?formState_validation_effect, ?fresh_validation_effect.
Qed.

End FormFacts.

Lemma onInputChange_one_field_witness :
  let w := useForm.useForm useForm.blank_form (Some useForm.required) in
  let target := {| useForm.name := "terms"; useForm.type := "checkbox";
                   useForm.value := "on"; useForm.checked := true |} in
  let w' := useForm.onInputChange (Some useForm.required) target w in
  useForm.fields (useForm.formState w') !! "terms" = Some (useForm.Checked true) ∧
  useForm.fields (useForm.formState w') !! "email" = Some (useForm.Text EmptyString).
Proof.
  cbn zeta.
  destruct (onInputChange_one_field (Some useForm.required)
              {| useForm.name := "terms"; useForm.type := "checkbox";
                 useForm.value := "on"; useForm.checked := true |}
              (useForm.useForm useForm.blank_form (Some useForm.required)))
    as (Hbox & _ & Hother).
  split.
  - apply Hbox. reflexivity.
  - rewrite (Hother "email"); [by vm_compute | discriminate].
Defined.

Lemma onInputChange_order_witness :
  let w := useForm.useForm useForm.blank_form None in
  useForm.fields (useForm.formState
    (useForm.onInputChange None (useForm.typed "email" "a@b.c")
       (useForm.onInputChange None (useForm.typed "name" "Ann") w)))
  = useForm.fields (useForm.formState
      (useForm.onInputChange None (useForm.typed "name" "Ann")
         (useForm.onInputChange None (useForm.typed "email" "a@b.c") w))).
Proof.
  cbn zeta.
  apply (onInputChange_order None (useForm.typed "name" "Ann")
           (useForm.typed "email" "a@b.c")).
  discriminate.
Defined.

Lemma validation_invariant_witness :
  let f := λ formState, default ∅ (useForm.required formState) in
  let supplied := Some (λ formState, Some (f formState)) in
  let w := useForm.useForm useForm.blank_form supplied in
  useForm.errors (useForm.step useForm.blank_form supplied w (useForm.SetFormState ∅))
    = f ∅.
Proof.
  cbn zeta.
  destruct (validation_invariant useForm.blank_form
              (λ formState, default ∅ (useForm.required formState)) [])
    as (_ & _ & Hchanged & _).
  apply (Hchanged (useForm.SetFormState ∅)).
  vm_compute. lia.
Defined.

(** C5: the code at the failing input.  With the two required fields of
    the README and a blank initial form, typing a name and then calling
    [onResetForm] restores the form state, but the errors that the callback
    emptied come back from the validation effect: both fields are reported
    and the form is not valid. *)
Theorem onResetForm_errors_return :
  let validateFn := Some useForm.required in
  let w := useForm.onResetForm useForm.blank_form validateFn
             (useForm.run useForm.blank_form validateFn
                [useForm.InputChange (useForm.typed "name" "Ann")]
                (useForm.useForm useForm.blank_form validateFn)) in
  useForm.formState w = useForm.blank_form ∧
  useForm.errors w
    = {[ "name" := "Name is required"; "email" := "Email is required" ]} ∧
  useForm.errors w ≠ ∅ ∧
  useForm.isValid w = false.
Proof.
  cbn zeta. split; [by vm_compute|]. split; [by vm_compute|].
  split; [|by vm_compute].
  intros H. apply (f_equal (λ m : gmap string string, m !! "name")) in H.
  vm_compute in H. discriminate.
Qed.

(** ** The request executor *)

Section ExecutorFacts.
Import Executor.

Implicit Types (url method : string) (options : option Options) (env : Env).
Implicit Types (body : option value) (h : Hook) (resp : Response).

(** A controller is created with its flag down, and [abort] raises it. *)
Lemma lookup_new_controller (l : list bool) :
  ((l ++ [false])%list) !! length l = Some false.
Proof. by rewrite list_lookup_middle. Qed.

Lemma lookup_aborted_controller (l : list bool) :
  <[length l := true]> ((l ++ [false])%list) !! length l = Some true.
Proof. apply list_lookup_insert_eq. rewrite length_app; cbn; lia. Qed.

Lemma ok_false_iff resp :
  ok resp = false ↔ ¬ (200 ≤ status resp ∧ status resp ≤ 299)%N.
Proof.
  unfold ok. rewrite andb_false_iff, !N.leb_gt. lia.
Qed.

(** Runs a call of either hook up to the first test on the environment. *)
Ltac start_request :=
  unfold exec, useFetch.request, useApi.request, mbind, M_bind,
    try_catch_finally, fetch, await_json, rendered, setIsLoading, setHasError,
    setData, newAbortController, throw, cleanup, abort, aborted;
  cbn.

(** Splits on whether the cleanup runs while the call is suspended on
    [fetch]. *)
Ltac fetch_cases :=
  match goal with
  | |- context [orb ?b (cleanup_during_fetch ?env)] =>
      destruct (orb b (cleanup_during_fetch env))
  end.

(** The case where it does not: the caller holds the headers and the
    environment leaves the unit alone. *)
Ltac no_cleanup Hheld Hclean := rewrite ?Hheld, ?Hclean; cbn [andb orb].

Ltac new_controller :=
  cbn; rewrite ?lookup_new_controller, ?lookup_aborted_controller; cbn.

Lemma headers_rebuilt_default options :
  (options = None ∨ ∃ o, options = Some o ∧ opt_headers o = None) →
  useFetch.headers_rebuilt options = true ∧ useApi.headers_rebuilt options = true.
Proof.
  intros [-> | (o & -> & Ho)]; [done|].
  unfold useFetch.headers_rebuilt, useApi.headers_rebuilt; cbn. by rewrite Ho.
Qed.

(** C3: the code at the failing input.  When the caller gives no headers
    and the call is made from a render whose cells it changes, the render
    that [setIsLoading(true)] causes rebuilds [headers], hence [request],
    and runs the effect's cleanup, which aborts the call.  The response,
    here one with a status outside 200..299, is never looked at: the call
    settles with [hasError] null, not with the text made of [HTTP], the
    status and the status text; in [useFetch] and in [useApi] alike. *)
Theorem request_non_2xx_aborted url options env method body h resp :
  (options = None ∨ ∃ o, options = Some o ∧ opt_headers o = None) →
  rerenders h = true →
  network env = Responds resp →
  ¬ (200 ≤ status resp ∧ status resp ≤ 299)%N →
  let expected := "HTTP " ++ pretty (status resp) ++ ": " ++ statusText resp in
  let h1 := exec (useFetch.request url options env method body) h in
  let h2 := exec (useApi.request url options env method body) h in
  (hasError h1 = None ∧ hasError h1 ≠ Some expected ∧
   data h1 = data h ∧ isLoading h1 = false) ∧
  (hasError h2 = None ∧ hasError h2 ≠ Some expected ∧
   data h2 = data h ∧ isLoading h2 = false).
Proof.
  intros Hopt Hrender _ _.
  destruct (headers_rebuilt_default options Hopt) as [Hf Ha].
  split; start_request; rewrite ?Hf, ?Ha, Hrender; new_controller; done.
Qed.

Lemma request_non_2xx_aborted_witness :
  let env := {| network := Responds not_found;
                cleanup_during_fetch := false; cleanup_during_json := false |} in
  let h := exec (useFetch.request "/api/items" None env "GET" None) first_render in
  hasError h = None ∧ hasError h ≠ Some "HTTP 404: Not Found" ∧
  data h = VNull ∧ isLoading h = false.
Proof.
  cbn zeta.
  apply (request_non_2xx_aborted "/api/items" None
           {| network := Responds not_found;
              cleanup_during_fetch := false; cleanup_during_json := false |}
           "GET" None first_render not_found).
  - left. reflexivity.
  - reflexivity.
  - reflexivity.
  - cbn. lia.
Defined.

(** C8: a call cancelled in flight settles with [hasError] null and
    [isLoading] false, in [useFetch] and in [useApi] alike. *)
Theorem request_cancelled url options env method body h :
  cancelled_in_flight env →
  let h1 := exec (useFetch.request url options env method body) h in
  let h2 := exec (useApi.request url options env method body) h in
  (hasError h1 = None ∧ isLoading h1 = false) ∧
  (hasError h2 = None ∧ isLoading h2 = false).
Proof.
  intros [Hfetch | (Hjson & resp & Hnet & Hok)].
  - split; start_request; rewrite Hfetch, orb_true_r; new_controller; done.
  - split; start_request;
      (fetch_cases; new_controller; [done|]);
      rewrite Hnet, Hok, Hjson; new_controller; done.
Qed.

Lemma request_cancelled_witness :
  let env := {| network := Responds (found (VNum 3));
                cleanup_during_fetch := false; cleanup_during_json := true |} in
  let h := exec (useFetch.request "/api/items" None env "GET" None) first_render in
  hasError h = None ∧ isLoading h = false.
Proof.
  cbn zeta.
  apply (request_cancelled "/api/items" None
           {| network := Responds (found (VNum 3));
              cleanup_during_fetch := false; cleanup_during_json := true |}
           "GET" None first_render).
  right. split; [reflexivity|]. exists (found (VNum 3)). split; reflexivity.
Defined.

(** A cancelled call also leaves [data] as it was. *)
Lemma request_cancelled_data url options env method body h :
  cancelled_in_flight env →
  data (exec (useFetch.request url options env method body) h) = data h.
Proof.
  intros [Hfetch | (Hjson & resp & Hnet & Hok)].
  - start_request; rewrite Hfetch, orb_true_r; new_controller; done.
  - start_request;
      (fetch_cases; new_controller; [done|]);
      rewrite Hnet, Hok, Hjson; new_controller; done.
Qed.

(** X27: a call that is answered with a 2xx status and a readable body,
    made with headers that the caller holds and not cancelled, stores the
    decoded body, clears any earlier error and leaves [isLoading] false. *)
Lemma request_success url options env method body h resp v :
  useFetch.headers_rebuilt options = false →
  network env = Responds resp → ok resp = true → json resp = Fulfilled v →
  cleanup_during_fetch env = false → cleanup_during_json env = false →
  let h' := exec (useFetch.request url options env method body) h in
  data h' = v ∧ hasError h' = None ∧ isLoading h' = false.
Proof.
  intros Hheld Hnet Hok Hjson Hf Hj.
  start_request; no_cleanup Hheld Hf; new_controller.
  rewrite Hnet, Hok, Hj; new_controller. by rewrite Hjson.
Qed.

Lemma request_success_witness :
  let options := Some {| opt_headers := Some ∅; opt_autoFetch := None |} in
  let env := {| network := Responds (found (VNum 3));
                cleanup_during_fetch := false; cleanup_during_json := false |} in
  let failed := exec (useFetch.request "/api/items" options
                        {| network := Fails "offline";
                           cleanup_during_fetch := false;
                           cleanup_during_json := false |} "GET" None) first_render in
  let h' := exec (useFetch.request "/api/items" options env "GET" None) failed in
  data h' = VNum 3 ∧ hasError h' = None ∧ isLoading h' = false.
Proof.
  cbn zeta.
  apply (request_success "/api/items" _ _ "GET" None _ (found (VNum 3)) (VNum 3));
    reflexivity.
Defined.

(** C9: the two hooks are the same function of their arguments, of the
    environment and of the state before: the first render, [request] and
    the five callbacks agree, on the cells and on the calls made to
    [fetch] alike. *)
Theorem useApi_useFetch_equivalent url options env :
  useApi.useApi url options env = useFetch.useFetch url options env ∧
  (∀ method body h,
     useApi.request url options env method body h
       = useFetch.request url options env method body h) ∧
  (∀ h, useApi.get url options env h = useFetch.get url options env h) ∧
  (∀ body h, useApi.post url options env body h = useFetch.post url options env body h) ∧
  (∀ body h, useApi.put url options env body h = useFetch.put url options env body h) ∧
  (∀ body h, useApi.patch url options env body h = useFetch.patch url options env body h) ∧
  (∀ h, useApi.remove url options env h = useFetch.remove url options env h).
Proof. repeat split. Qed.

(** C10: when the second argument is left out, or does not set
    [autoFetch], the flag is false, the first render makes no call to
    [fetch] and the cells hold [data] null, [hasError] null and
    [isLoading] false; in [useFetch] and in [useApi] alike. *)
Theorem autoFetch_default url options env :
  (options = None ∨ ∃ o, options = Some o ∧ opt_autoFetch o = None) →
  let h1 := useFetch.useFetch url options env in
  let h2 := useApi.useApi url options env in
  (useFetch.autoFetch options = false ∧ sent h1 = [] ∧
   data h1 = VNull ∧ hasError h1 = None ∧ isLoading h1 = false) ∧
  (useApi.autoFetch options = false ∧ sent h2 = [] ∧
   data h2 = VNull ∧ hasError h2 = None ∧ isLoading h2 = false).
Proof.
  intros Hopt.
  assert (Hf : useFetch.autoFetch options = false).
  { destruct Hopt as [-> | (o & -> & Ho)]; [reflexivity|].
    unfold useFetch.autoFetch; cbn. by rewrite Ho. }
  assert (Ha : useApi.autoFetch options = false).
  { destruct Hopt as [-> | (o & -> & Ho)]; [reflexivity|].
    unfold useApi.autoFetch; cbn. by rewrite Ho. }
  cbn zeta. unfold useFetch.useFetch, useApi.useApi. rewrite Hf, Ha. done.
Qed.

Lemma autoFetch_default_witness :
  let options := Some {| opt_headers := Some {[ "Authorization" := "Bearer token" ]};
                         opt_autoFetch := None |} in
  let env := {| network := Responds (found (VNum 3));
                cleanup_during_fetch := false; cleanup_during_json := false |} in
  sent (useFetch.useFetch "/api/items" options env) = [] ∧
  sent (useApi.useApi "/api/items" None env) = [].
Proof.
  cbn zeta. split.
  - eapply (autoFetch_default "/api/items"
              (Some {| opt_headers := Some {[ "Authorization" := "Bearer token" ]};
                       opt_autoFetch := None |})).
    right. eexists. split; reflexivity.
  - eapply (autoFetch_default "/api/items" None). left. reflexivity.
Defined.

(** *** What a call sends *)

(** Runs a call of either hook through every branch of the environment. *)
Ltac settle env :=
  start_request;
  fetch_cases; new_controller; [done|];
  destruct (network env) as [?reason|?resp]; cbn; [done|];
  destruct (ok _); cbn; [|done];
  destruct (cleanup_during_json env); new_controller; [done|];
  destruct (json _) as [?v|?e]; cbn; [done|];
  by destruct (String.eqb (name _) "AbortError").

Lemma sent_request url options env method body h :
  sent (exec (useFetch.request url options env method body) h)
    = (sent h ++
       [ {| Executor.url := url;
            Executor.method := method;
            Executor.headers :=
              useFetch.headers options ∪ {[ "Content-Type" := "application/json" ]};
            Executor.body :=
              if truthy (default VNull body)
              then JSON.stringify (default VNull body) else None;
            Executor.signal := length (controllers h) |} ])%list.
Proof. settle env. Qed.

(** X19: every call of [request] makes one call to [fetch], whatever the
    environment does: the list of calls grows by one entry, for the hook's
    url, with the method asked for and the signal of a controller created
    by this call. *)
Theorem request_sends_once url options env method body h :
  ∃ req,
    sent (exec (useFetch.request url options env method body) h)
      = (sent h ++ [req])%list ∧
    Executor.url req = url ∧
    Executor.method req = method ∧
    Executor.signal req = length (controllers h).
Proof. eexists. split; [apply sent_request | done]. Qed.

(** X20: the headers sent are the caller's headers, each with the value
    the caller gave, plus [Content-Type: application/json] when the caller
    gave no header of exactly that name; nothing else is sent. *)
Theorem request_headers url options env method body h req key :
  last (sent (exec (useFetch.request url options env method body) h)) = Some req →
  Executor.headers req !! key =
    match useFetch.headers options !! key with
    | Some v => Some v
    | None => if decide (key = "Content-Type") then Some "application/json" else None
    end.
Proof.
  rewrite sent_request, last_snoc. intros [= <-]. cbn [Executor.headers].
  rewrite lookup_union.
  destruct (useFetch.headers options !! key) as [v|]; [by destruct (_ !! key)|].
  destruct (decide (key = "Content-Type")) as [->|Hne].
  - by rewrite lookup_singleton_eq.
  - by rewrite lookup_singleton_ne.
Qed.

Lemma request_headers_witness :
  let caller : gmap string string :=
    {[ "Authorization" := "Bearer token"; "Content-Type" := "text/plain" ]} in
  let req := {| Executor.url := "/api/items";
                Executor.method := "GET";
                Executor.headers := caller ∪ {[ "Content-Type" := "application/json" ]};
                Executor.body := None;
                Executor.signal := 0 |} in
  Executor.headers req !! "Content-Type" = Some "text/plain" ∧
  Executor.headers req !! "Accept" = None.
Proof.
  cbn zeta.
  pose (options := Some {| opt_headers :=
                             Some {[ "Authorization" := "Bearer token";
                                     "Content-Type" := "text/plain" ]};
                           opt_autoFetch := None |}).
  pose (env := {| network := Fails "offline";
                  cleanup_during_fetch := false; cleanup_during_json := false |}).
  split.
  - rewrite (request_headers "/api/items" options env "GET" None first_render _
               "Content-Type"); [|by vm_compute].
    by vm_compute.
  - rewrite (request_headers "/api/items" options env "GET" None first_render _
               "Accept"); [|by vm_compute].
    by vm_compute.
Defined.

(** X21: the payload is sent only when it is truthy: [post], [put] and
    [patch] called with [0], [false], the empty string, [null] or nothing
    send no body, and with a truthy payload they send its JSON text;
    [get] and [remove] never send a body. *)
Theorem request_body url options env payload h :
  let body_of m := Executor.body <$> last (sent (exec m h)) in
  (truthy payload = false →
   body_of (useFetch.post url options env (Some payload)) = Some None ∧
   body_of (useFetch.put url options env (Some payload)) = Some None ∧
   body_of (useFetch.patch url options env (Some payload)) = Some None) ∧
  (truthy payload = true →
   ∃ text, JSON.stringify payload = Some text ∧
     body_of (useFetch.post url options env (Some payload)) = Some (Some text) ∧
     body_of (useFetch.put url options env (Some payload)) = Some (Some text) ∧
     body_of (useFetch.patch url options env (Some payload)) = Some (Some text)) ∧
  body_of (useFetch.post url options env None) = Some None ∧
  body_of (useFetch.get url options env) = Some None ∧
  body_of (useFetch.remove url options env) = Some None.
Proof.
  cbn zeta. unfold useFetch.post, useFetch.put, useFetch.patch, useFetch.get,
    useFetch.remove.
  rewrite !sent_request, !last_snoc. cbn.
  split; [by intros ->|]. split; [|done].
  intros Ht. rewrite Ht.
  destruct (truthy_stringify payload Ht) as [text Htext].
  exists text. by rewrite Htext.
Qed.

Lemma request_body_witness :
  let env := {| network := Responds (found VNull);
                cleanup_during_fetch := false; cleanup_during_json := false |} in
  Executor.body <$>
    last (sent (exec (useFetch.post "/api/items" None env (Some (VNum 0))) first_render))
  = Some None.
Proof.
  cbn zeta.
  destruct (request_body "/api/items" None
              {| network := Responds (found VNull);
                 cleanup_during_fetch := false; cleanup_during_json := false |}
              (VNum 0) first_render) as [Hfalsy _].
  destruct Hfalsy as [Hpost _]; [reflexivity | exact Hpost].
Defined.

(** *** How a call settles *)

(** X22: when the network fails, and the call was made with headers that
    the caller holds and was not cancelled, the call settles with
    [hasError] equal to the failure's message, [data] as it was and
    [isLoading] false. *)
Theorem request_network_failure url options env method body h reason :
  useFetch.headers_rebuilt options = false →
  network env = Fails reason →
  cleanup_during_fetch env = false →
  let h' := exec (useFetch.request url options env method body) h in
  hasError h' = Some reason ∧ data h' = data h ∧ isLoading h' = false.
Proof.
  intros Hheld Hnet Hclean. start_request. no_cleanup Hheld Hclean. new_controller.
  by rewrite Hnet.
Qed.

Lemma request_network_failure_witness :
  let options := Some {| opt_headers := Some {[ "Authorization" := "Bearer token" ]};
                         opt_autoFetch := None |} in
  let env := {| network := Fails "Failed to fetch";
                cleanup_during_fetch := false; cleanup_during_json := true |} in
  let h' := exec (useFetch.request "/api/items" options env "DELETE" None) first_render in
  hasError h' = Some "Failed to fetch" ∧ data h' = VNull ∧ isLoading h' = false.
Proof.
  cbn zeta.
  apply (request_network_failure "/api/items"
           (Some {| opt_headers := Some {[ "Authorization" := "Bearer token" ]};
                    opt_autoFetch := None |})
           {| network := Fails "Failed to fetch";
              cleanup_during_fetch := false; cleanup_during_json := true |});
    reflexivity.
Defined.

(** X23: when a 2xx response has a body that [json()] cannot read, and the
    call was made with headers that the caller holds and was not
    cancelled, the call settles with [hasError] equal to the message of
    that rejection, [data] as it was and [isLoading] false. *)
Theorem request_unreadable_body url options env method body h resp e :
  useFetch.headers_rebuilt options = false →
  network env = Responds resp → ok resp = true → json resp = Rejected e →
  name e ≠ "AbortError" →
  cleanup_during_fetch env = false → cleanup_during_json env = false →
  let h' := exec (useFetch.request url options env method body) h in
  hasError h' = Some (message e) ∧ data h' = data h ∧ isLoading h' = false.
Proof.
  intros Hheld Hnet Hok Hjson Hname Hf Hj.
  start_request. no_cleanup Hheld Hf. new_controller.
  rewrite Hnet, Hok, Hj. new_controller. rewrite Hjson. cbn.
  by destruct (String.eqb_spec (name e) "AbortError").
Qed.

Lemma request_unreadable_body_witness :
  let resp := {| status := 200; statusText := "OK";
                 json := Rejected JSON.SyntaxError |} in
  let options := Some {| opt_headers := Some ∅; opt_autoFetch := None |} in
  let env := {| network := Responds resp;
                cleanup_during_fetch := false; cleanup_during_json := false |} in
  let h' := exec (useFetch.request "/api/items" options env "GET" None) first_render in
  hasError h' = Some "Unexpected token in JSON" ∧ data h' = VNull ∧ isLoading h' = false.
Proof.
  cbn zeta.
  apply (request_unreadable_body "/api/items" _ _ "GET" None first_render
           {| status := 200; statusText := "OK"; json := Rejected JSON.SyntaxError |}
           JSON.SyntaxError); try reflexivity.
  discriminate.
Defined.

(** X24: however the environment behaves, a settled call leaves
    [isLoading] false, and it never leaves an error together with new
    data: either [hasError] is null or [data] is what it was before the
    call. *)
Theorem request_settles url options env method body h :
  let h' := exec (useFetch.request url options env method body) h in
  isLoading h' = false ∧ (hasError h' = None ∨ data h' = data h).
Proof.
  cbn zeta. start_request.
  fetch_cases; new_controller; [by auto|].
  destruct (network env) as [reason|resp]; cbn; [by auto|].
  destruct (ok resp); cbn; [|by auto].
  destruct (cleanup_during_json env); new_controller; [by auto|].
  destruct (json resp) as [v|e]; cbn; [by auto|].
  destruct (String.eqb (name e) "AbortError"); cbn; by auto.
Qed.

(** X25: a call creates one abort controller and points [controllerRef] at
    it; it never touches the controllers of earlier calls, not even when
    the cleanup runs while it is suspended: their flags are what they were
    before. *)
Theorem request_controllers url options env method body h :
  let h' := exec (useFetch.request url options env method body) h in
  length (controllers h') = S (length (controllers h)) ∧
  controllerRef h' = Some (length (controllers h)) ∧
  (∀ i, i < length (controllers h) → controllers h' !! i = controllers h !! i).
Proof.
  cbn zeta.
  assert (Hkeep : ∀ i, i < length (controllers h) →
            <[length (controllers h) := true]> ((controllers h ++ [false])%list) !! i
              = controllers h !! i).
  { intros i Hi. rewrite list_lookup_insert_ne by lia. by apply lookup_app_l. }
  assert (Hnew : ∀ i, i < length (controllers h) →
            ((controllers h ++ [false])%list) !! i = controllers h !! i).
  { intros i Hi. by apply lookup_app_l. }
  assert (Hlen : length (<[length (controllers h) := true]>
                           ((controllers h ++ [false])%list))
                 = S (length (controllers h))).
  { rewrite length_insert, length_app. cbn. lia. }
  assert (Hlen' : length ((controllers h ++ [false])%list) = S (length (controllers h))).
  { rewrite length_app. cbn. lia. }
  start_request.
  fetch_cases; new_controller; [done|].
  destruct (network env) as [reason|resp]; cbn; [done|].
  destruct (ok resp); cbn; [|done].
  destruct (cleanup_during_json env); new_controller; [done|].
  destruct (json resp) as [v|e]; cbn; [done|].
  by destruct (String.eqb (name e) "AbortError").
Qed.

Lemma request_controllers_witness :
  let env := {| network := Responds (found (VNum 3));
                cleanup_during_fetch := true; cleanup_during_json := false |} in
  let h1 := exec (useFetch.request "/api/items" None env "GET" None) first_render in
  let env2 := {| network := Responds (found (VNum 4));
                 cleanup_during_fetch := false; cleanup_during_json := false |} in
  let h2 := exec (useFetch.request "/api/items" None env2 "GET" None) h1 in
  controllers h2 !! 0 = Some true ∧ controllerRef h2 = Some 1.
Proof.
  cbn zeta.
  destruct (request_controllers "/api/items" None
              {| network := Responds (found (VNum 4));
                 cleanup_during_fetch := false; cleanup_during_json := false |}
              "GET" None
              (exec (useFetch.request "/api/items" None
                       {| network := Responds (found (VNum 3));
                          cleanup_during_fetch := true; cleanup_during_json := false |}
                       "GET" None) first_render))
    as (_ & Href & Hkeep).
  split.
  - rewrite (Hkeep 0); [reflexivity | vm_compute; lia].
  - exact Href.
Defined.

(** X26: with [autoFetch] set and headers that the caller holds, the
    first render makes exactly one call to [fetch]: a GET for the hook's
    url, without a body, under the first controller, with the merged
    headers; and [isLoading] is false once that call has settled. *)
Theorem autoFetch_first_render url held env :
  let options := Some {| opt_headers := Some held; opt_autoFetch := Some true |} in
  sent (useFetch.useFetch url options env)
    = [ {| Executor.url := url;
           Executor.method := "GET";
           Executor.headers := held ∪ {[ "Content-Type" := "application/json" ]};
           Executor.body := None;
           Executor.signal := 0 |} ] ∧
  isLoading (useFetch.useFetch url options env) = false.
Proof.
  cbn zeta. unfold useFetch.useFetch.
  set (options := Some {| opt_headers := Some held; opt_autoFetch := Some true |}).
  change (useFetch.autoFetch options) with true. cbn match.
  split; [by rewrite sent_request|].
  settle env.
Qed.

(** *** Calls made without headers from the caller *)

(** X28: when the response arrives with a status outside 200..299 to a
    call made with headers that the caller holds, the call settles with
    [hasError] equal to the text made of [HTTP], the status and the status
    text, with [data] as it was and with [isLoading] false. *)
Theorem request_non_2xx_reported url options env method body h resp :
  useFetch.headers_rebuilt options = false →
  network env = Responds resp →
  cleanup_during_fetch env = false →
  ¬ (200 ≤ status resp ∧ status resp ≤ 299)%N →
  let h' := exec (useFetch.request url options env method body) h in
  hasError h' = Some ("HTTP " ++ pretty (status resp) ++ ": " ++ statusText resp) ∧
  data h' = data h ∧ isLoading h' = false.
Proof.
  intros Hheld Hnet Hclean Hstatus. apply ok_false_iff in Hstatus.
  start_request. no_cleanup Hheld Hclean. new_controller.
  by rewrite Hnet, Hstatus.
Qed.

Lemma request_non_2xx_reported_witness :
  let options := Some {| opt_headers := Some ∅; opt_autoFetch := None |} in
  let env := {| network := Responds not_found;
                cleanup_during_fetch := false; cleanup_during_json := false |} in
  let h' := exec (useFetch.request "/api/items" options env "GET" None) first_render in
  hasError h' = Some "HTTP 404: Not Found" ∧ data h' = VNull ∧ isLoading h' = false.
Proof.
  cbn zeta.
  apply (request_non_2xx_reported "/api/items" _ _ "GET" None first_render not_found).
  - reflexivity.
  - reflexivity.
  - reflexivity.
  - cbn. lia.
Defined.

(** X29: without headers from the caller, a call made from a render whose
    cells it changes is aborted by the hook itself, whatever the network
    would have answered: the controller of the call ends aborted, [data]
    is as it was, [hasError] is null and [isLoading] is false. *)
Theorem request_aborts_itself url options env method body h :
  useFetch.headers_rebuilt options = true →
  rerenders h = true →
  let h' := exec (useFetch.request url options env method body) h in
  aborted (length (controllers h)) h' = true ∧
  data h' = data h ∧ hasError h' = None ∧ isLoading h' = false.
Proof.
  intros Hrebuilt Hrender.
  start_request. rewrite Hrebuilt, Hrender. new_controller. done.
Qed.

Lemma request_aborts_itself_witness :
  let env := {| network := Responds (found (VNum 3));
                cleanup_during_fetch := false; cleanup_during_json := false |} in
  let h' := exec (useFetch.get "/api/items" None env) first_render in
  aborted 0 h' = true ∧ data h' = VNull ∧ hasError h' = None ∧ isLoading h' = false.
Proof.
  cbn zeta.
  apply (request_aborts_itself "/api/items" None
           {| network := Responds (found (VNum 3));
              cleanup_during_fetch := false; cleanup_during_json := false |}
           "GET" None first_render); reflexivity.
Defined.

End ExecutorFacts.
